(** * KaraokeVideoMaker: the slideshow generator of [slideshow.py]

    A shallow embedding of [slideshow.py] and the properties of its
    sequence planner, slide renderer, catalog filter and pipeline.

    Modelling conventions.
    - Python [float] durations are exact rationals ([Q]); [math.ceil] is
      [Qceiling].  Rounding of the floating-point operations is not modelled.
    - Python [int] is [Z]; list lengths and indices that Python keeps
      non-negative are [nat].
    - [str] is [string]; [dict] with string keys is [gmap string _].
    - The file system, [wget], the image decoder and the audio decoder are
      an explicit [World]; the random generator is an explicit state.
    - Exceptions are the [Error] side of a result; actions on the outside
      world are recorded in an event log. *)

From Stdlib Require Import ZArith QArith Qround Qminmax Lia Ascii String.
From stdpp Require Import base list strings gmap.

Local Open Scope Z_scope.

(** ** Python numerics *)

Module PyNum.

(** [math.ceil(x)] on an exact rational. *)
Definition math_ceil (x : Q) : Z := Qceiling x.

(** [int(x)] truncates towards zero: the floor of a non-negative rational,
    the ceiling of a negative one. *)
Definition int_of (x : Q) : Z :=
  if Qle_bool 0 x then Qfloor x else Qceiling x.

End PyNum.

Import PyNum.

(** ** Python list slicing *)

(** [l[:n]] for an integer [n]: a negative bound counts from the end. *)
Definition py_slice_to {A : Type} (l : list A) (n : Z) : list A :=
  if Z_le_dec 0 n then take (Z.to_nat n) l
  else take (Z.to_nat (Z.of_nat (length l) + n)) l.

(** ** The random source *)

(** [random.shuffle] draws from the generator through [_randbelow(n)], a
    number in [range(n)].  The generator is a state of type [G]. *)
Class RandomSource (G : Type) := {
  randbelow : nat -> G -> nat * G;
  randbelow_lt : forall n g, (0 < n)%nat -> (fst (randbelow n g) < n)%nat
}.

(** A linear congruential generator, an instance for running the model. *)
Definition lcg_next (g : nat) : nat := ((g * 75 + 74) mod 4093)%nat.

#[export] Program Instance lcg_source : RandomSource nat := {
  randbelow n g := (lcg_next g mod n, lcg_next g)%nat
}.
Next Obligation. intros n g Hn. simpl. apply Nat.mod_upper_bound. lia. Qed.

Section Shuffle.
Context {G : Type} `{RandomSource G} {A : Type}.

(** [x[i], x[j] = x[j], x[i]]; an index out of range raises in Python and
    leaves the list as it is here ([shuffle] never swaps out of range). *)
Definition swap (x : list A) (i j : nat) : list A :=
  match x !! j, x !! i with
  | Some xj, Some xi => <[j := xi]> (<[i := xj]> x)
  | _, _ => x
  end.

(** [for i in reversed(range(1, len(x))): j = randbelow(i + 1); swap],
    started at [i]. *)
Fixpoint shuffle_from (i : nat) (x : list A) (g : G) : list A * G :=
  match i with
  | O => (x, g)
  | S i' =>
      let '(j, g') := randbelow (S i) g in
      shuffle_from i' (swap x i j) g'
  end.

(** [random.shuffle(x)]: shuffles in place and returns nothing; here it
    returns the shuffled list and the next generator state. *)
Definition shuffle (x : list A) (g : G) : list A * G :=
  shuffle_from (length x - 1) x g.

End Shuffle.

(** ** Strings and paths *)

Module PyStr.

(** [str.lower] on the ASCII letters.  The characters of the extensions
    tested below are ASCII letters and no other character lowers to one of
    them alone, so the model agrees with Python on those tests. *)
Definition lower_ascii (c : ascii) : ascii :=
  let n := nat_of_ascii c in
  if ((65 <=? n) && (n <=? 90))%nat then ascii_of_nat (n + 32) else c.

Fixpoint lower (s : string) : string :=
  match s with
  | EmptyString => EmptyString
  | String c s' => String (lower_ascii c) (lower s')
  end.

(** [s.startswith(p)] *)
Fixpoint startswith (s p : string) {struct p} : bool :=
  match p with
  | EmptyString => true
  | String a p' =>
      match s with
      | EmptyString => false
      | String b s' => if decide (a = b) then startswith s' p' else false
      end
  end.

(** [s.endswith(p)] *)
Fixpoint endswith (s p : string) : bool :=
  if decide (s = p) then true
  else match s with
       | EmptyString => false
       | String _ s' => endswith s' p
       end.

(** [s.endswith((p1, ..., pn))] with a tuple of suffixes. *)
Definition endswith_any (s : string) (ps : list string) : bool :=
  existsb (endswith s) ps.

(** [os.path.join(a, b)] on POSIX paths. *)
Definition os_path_join (a b : string) : string :=
  if startswith b "/" then b
  else if decide (a = "") then b
  else if endswith a "/" then a +:+ b
  else a +:+ "/" +:+ b.

End PyStr.

Import PyStr.

(** ** Exceptions, the outside world and the event log *)

(** The exceptions the program can raise. *)
Inductive PyError : Type :=
| ValueError (msg : string)
| TypeError (msg : string)
| KeyError (key : string)
| ZeroDivisionError
| FileNotFoundError (path : string)
| UnidentifiedImageError (path : string)
| OSError (path : string).

Inductive result (A : Type) : Type :=
| Ok (a : A)
| Error (e : PyError).
Arguments Ok {A} a.
Arguments Error {A} e.

(** A value of the song template: a string, or the list of strings that
    [parse_template] builds for the key [Singers Images]. *)
Inductive value : Type :=
| VStr (s : string)
| VList (l : list string).

#[export] Instance value_eq_dec : EqDecision value.
Proof. solve_decision. Defined.

(** An RGB pixel, an RGBA pixel; a channel is an integer in [0, 255]. *)
Definition rgb : Type := Z * Z * Z.
Definition rgba : Type := Z * Z * Z * Z.

(** A PIL image: its size and its rows of pixels, top row first. *)
Record Image (P : Type) : Type := mkImage {
  im_width : nat;
  im_height : nat;
  im_rows : list (list P)
}.
Arguments mkImage {P} _ _ _.
Arguments im_width {P} _.
Arguments im_height {P} _.
Arguments im_rows {P} _.

(** What the program reads from outside itself.  [image_open] is the state
    of the files when slides are rendered, that is after [wget] has run. *)
Record World : Type := mkWorld {
  (** [os.path.exists] *)
  path_exists : string -> bool;
  (** [os.listdir], or the exception it raises *)
  listdir : string -> result (list string);
  (** [subprocess.run(command)]: the exit status, [None] when the
      executable cannot be started *)
  run_process : list string -> option Z;
  (** [Image.open(path)] with the pixels decoded as RGB, or the exception
      raised for a missing or undecodable file *)
  image_open : string -> result (Image rgb);
  (** [AudioFileClip(path).duration], or the exception raised *)
  audio_open : string -> result Q
}.

(** What the program does to the outside, in order.  [EvPlanned] is not an
    action on the outside: it marks the point where the plan has been made
    and records it; [EvConcatenate] marks the call of
    [concatenate_videoclips]. *)
Inductive Event : Type :=
| EvRun (command : list string) (status : Z)
| EvAudioOpen (path : string)
| EvPlanned (plan : list string)
| EvImageOpen (path : string)
| EvConcatenate (n_clips : nat)
| EvSaveFrame (path : string) (at_time : Q)
| EvWriteVideo (path : string) (duration : Q)
| EvClose.

#[export] Instance result_ret : MRet result := fun A a => Ok a.
#[export] Instance result_bind : MBind result := fun A B f r =>
  match r with
  | Ok a => f a
  | Error e => Error e
  end.

(** Computations that log events and may raise. *)
Definition M (A : Type) : Type := list Event -> list Event * result A.

#[export] Instance M_ret : MRet M := fun A a log => (log, Ok a).
#[export] Instance M_bind : MBind M := fun A B f m log =>
  match m log with
  | (log', Ok a) => f a log'
  | (log', Error e) => (log', Error e)
  end.

Definition raise {A : Type} (e : PyError) : M A := fun log => (log, Error e).
Definition emit (ev : Event) : M unit := fun log => (log ++ [ev], Ok tt).
Definition lift {A : Type} (r : result A) : M A := fun log => (log, r).

(** Running a computation from the empty log. *)
Definition run {A : Type} (m : M A) : list Event * result A := m [].

(** ** The song template *)

Definition default_song_info : gmap string value :=
  <["Song" := VStr "Unknown Title"]>
  (<["Film" := VStr "Unknown Album"]>
  (<["Singers (Original)" := VStr "Unknown Artists"]>
  (<["Singers (Karaoke)" := VStr "Unknown Singer"]> ∅))).

(** [song_info[key]] *)
Definition getitem (song_info : gmap string value) (key : string) : result value :=
  match song_info !! key with
  | Some v => Ok v
  | None => Error (KeyError key)
  end.

(** [v + suffix] for a string suffix: a list on the left raises. *)
Definition str_concat (v : value) (suffix : string) : result string :=
  match v with
  | VStr s => Ok (s +:+ suffix)
  | VList _ => Error (TypeError "can only concatenate list (not str) to list")
  end.

(** ** The generator object *)

Record SlideShowGenerator : Type := mkGenerator {
  images_dir : string;
  music_path : string;
  output_path : string;
  frame_path : string;
  video_path : string;
  width : Z;
  height : Z;
  footer_height : Z;
  song_info : gmap string value
}.

(** [SlideShowGenerator.__init__(images_dir, music_path, output_path,
    song_info=None)], statement by statement. *)
Definition __init__ (w : World) (images_dir music_path output_path : string)
    (song_info : option (gmap string value)) : result SlideShowGenerator :=
  match song_info with
  | None => Error (TypeError "'NoneType' object is not subscriptable")
  | Some info =>
      jpg ← getitem info "Song" ≫= (fun song => str_concat song ".jpg");
      mp4 ← getitem info "Song" ≫= (fun song => str_concat song ".mp4");
      let self := {|
        images_dir := images_dir;
        music_path := music_path;
        output_path := output_path;
        frame_path := os_path_join output_path jpg;
        video_path := os_path_join output_path mp4;
        width := 1920;
        height := 1080;
        footer_height := 120;
        song_info := if decide (info = ∅) then default_song_info else info
      |} in
      if negb (path_exists w images_dir) then
        Error (ValueError ("Image directory " +:+ images_dir +:+ " does not exist"))
      else if negb (path_exists w music_path) then
        Error (ValueError ("Music file " +:+ music_path +:+ " does not exist"))
      else Ok self
  end.

(** ** Images *)

Module Imaging.

(** [Image.new(mode, (w, h), color)] *)
Definition Image_new {P : Type} (w h : nat) (color : P) : Image P :=
  mkImage w h (replicate h (replicate w color)).


(** [im.getpixel((x, y))]; [None] outside the image. *)
Definition getpixel {P : Type} (im : Image P) (x y : nat) : option P :=
  im_rows im !! y ≫= fun row => row !! x.

(** [im.putpixel((x, y), v)]; PIL raises outside the image, here the image
    is left as it is (the footer loops stay inside). *)
Definition putpixel {P : Type} (im : Image P) (x y : nat) (v : P) : Image P :=
  match im_rows im !! y with
  | Some row => mkImage (im_width im) (im_height im) (<[y := <[x := v]> row]> (im_rows im))
  | None => im
  end.

(** The pixel map of an image, rows and columns numbered from 0. *)
Definition map_pixels {P R : Type} (f : nat -> nat -> P -> R) (im : Image P) : Image R :=
  mkImage (im_width im) (im_height im)
    (imap (fun y row => imap (fun x p => f x y p) row) (im_rows im)).

(** PIL's luma transform [L24(rgb) >> 16], used by [convert('L')] from RGB
    and from RGBA alike: the alpha channel does not enter. *)
Definition rgb2l (r g b : Z) : Z :=
  Z.shiftr (r * 19595 + g * 38470 + b * 7471 + 32768) 16.

(** [im.convert('L')] on an RGBA image. *)
Definition convert_L (im : Image rgba) : Image Z :=
  map_pixels (fun _ _ '(r, g, b, _) => rgb2l r g b) im.

(** PIL's [DIV255(a)] = [((a + 128) >> 8) + (a + 128)) >> 8]. *)
Definition div255 (a : Z) : Z :=
  let tmp := a + 128 in Z.shiftr (Z.shiftr tmp 8 + tmp) 8.

(** PIL's [BLEND(mask, in1, in2)]. *)
Definition blend (mask in1 in2 : Z) : Z :=
  div255 (in1 * (255 - mask) + in2 * mask).

Definition blend_rgb (mask : Z) (p ink : rgb) : rgb :=
  let '(r, g, b) := p in
  let '(ir, ig, ib) := ink in
  (blend mask r ir, blend mask g ig, blend mask b ib).

(** Is column [x], row [y] inside the box of size [w] x [h] at [(ox, oy)]? *)
Definition in_box (ox oy : Z) (w h : nat) (x y : nat) : bool :=
  (ox <=? Z.of_nat x) && (Z.of_nat x <? ox + Z.of_nat w) &&
  (oy <=? Z.of_nat y) && (Z.of_nat y <? oy + Z.of_nat h).

(** [bg.paste(color, (ox, oy), mask=mask)]: the box has the size of the
    mask and is clipped to the image; inside it every channel is blended
    with the colour by the mask value. *)
Definition paste_fill (bg : Image rgb) (ink : rgb) (ox oy : Z) (mask : Image Z) : Image rgb :=
  map_pixels (fun x y p =>
    if in_box ox oy (im_width mask) (im_height mask) x y then
      match getpixel mask (Z.to_nat (Z.of_nat x - ox)) (Z.to_nat (Z.of_nat y - oy)) with
      | Some m => blend_rgb m p ink
      | None => p
      end
    else p) bg.

(** [bg.paste(im, (ox, oy))]: the pixels of [im] replace those of [bg]
    inside the box, clipped to [bg]. *)
Definition paste_image (bg im : Image rgb) (ox oy : Z) : Image rgb :=
  map_pixels (fun x y p =>
    if in_box ox oy (im_width im) (im_height im) x y then
      match getpixel im (Z.to_nat (Z.of_nat x - ox)) (Z.to_nat (Z.of_nat y - oy)) with
      | Some q => q
      | None => p
      end
    else p) bg.

(** The resampling kernel of [Image.resize(size, LANCZOS)] is not modelled:
    any function that returns the rows of an image of the requested size. *)
Class Resampling : Type := {
  resample : Image rgb -> nat -> nat -> list (list rgb);
  resample_height : forall im w h, length (resample im w h) = h;
  resample_width : forall im w h, Forall (fun row => length row = w) (resample im w h)
}.

(** [im.resize((w, h), LANCZOS)]: PIL refuses a size below 1 x 1. *)
Definition resize `{Resampling} (im : Image rgb) (w h : Z) : result (Image rgb) :=
  if (w <? 1) || (h <? 1) then Error (ValueError "height and width must be > 0")
  else Ok (mkImage (Z.to_nat w) (Z.to_nat h) (resample im (Z.to_nat w) (Z.to_nat h))).

(** Nearest-neighbour sampling, an instance for running the model. *)
Definition nearest (im : Image rgb) (w h : nat) : list (list rgb) :=
  (fun y => (fun x =>
     default (0, 0, 0) (getpixel im (x * im_width im / w) (y * im_height im / h)))
     <$> seq 0 w) <$> seq 0 h.

#[export] Program Instance nearest_resampling : Resampling := {
  resample := nearest
}.
Next Obligation. intros im w h. unfold nearest. by rewrite length_fmap, length_seq. Qed.
Next Obligation.
  intros im w h. unfold nearest. apply Forall_fmap, Forall_forall.
  intros y _. simpl. by rewrite length_fmap, length_seq.
Qed.

End Imaging.

Import Imaging.

(** ** The slide renderer: [_create_slide_with_footer] *)

(** [a < b] on rationals, as a boolean. *)
Definition Qltb (a b : Q) : bool := negb (Qle_bool b a).

(** The resize dimensions [(new_width, new_height)] for an image of size
    [iw] x [ih]. *)
Definition fit_size (self : SlideShowGenerator) (iw ih : Z) : Z * Z :=
  let img_ratio := (inject_Z iw / inject_Z ih)%Q in
  let target_ratio := (inject_Z (width self) / inject_Z (height self))%Q in
  if Qltb target_ratio img_ratio then
    (width self, int_of (inject_Z (width self) / img_ratio))
  else
    (int_of (inject_Z (height self) * img_ratio), height self).

(** [int((y / footer_height) ** 1.5 * 160)] for [0 <= y] and
    [0 < footer_height].  The value under [int] is
    [160 * (y / footer_height) ^ (3/2)], the square root of
    [160^2 * y^3 / footer_height^3]; its integer part is the integer square
    root of the integer part of that quotient ([footer_alpha_bracket]), and
    the floating-point evaluation has the same integer part
    ([footer_alpha_exact_rows]). *)
Definition footer_alpha (footer_height y : Z) : Z :=
  Z.sqrt (160 ^ 2 * y ^ 3 / footer_height ^ 3).

(** The inner loop [for x in range(width): footer.putpixel((x, y), (0, 0, 0, alpha))]. *)
Definition footer_fill_row (w : nat) (y : nat) (alpha : Z) (footer : Image rgba) : Image rgba :=
  foldl (fun im x => putpixel im x y (0, 0, 0, alpha)) footer (seq 0 w).

(** The footer image: a transparent [width] x [footer_height] image, then
    the loop over its rows. *)
Definition footer_gradient (self : SlideShowGenerator) : Image rgba :=
  let w := Z.to_nat (width self) in
  let fh := Z.to_nat (footer_height self) in
  foldl (fun im y => footer_fill_row w y (footer_alpha (footer_height self) (Z.of_nat y)) im)
        (Image_new w fh (0, 0, 0, 0)) (seq 0 fh).

(** [background.paste((0, 0, 0), (0, height - footer_height),
    mask=footer.convert('L'))] *)
Definition paste_footer (self : SlideShowGenerator) (background : Image rgb) : Image rgb :=
  paste_fill background (0, 0, 0) 0 (height self - footer_height self)
    (convert_L (footer_gradient self)).

(** The background before the footer: the resized image pasted in the
    middle of a black canvas. *)
Definition letterbox `{Resampling} (self : SlideShowGenerator) (img : Image rgb) :
    result (Image rgb) :=
  if decide (im_height img = 0%nat) then Error ZeroDivisionError
  else
    let '(new_width, new_height) :=
      fit_size self (Z.of_nat (im_width img)) (Z.of_nat (im_height img)) in
    img_resized ← resize img new_width new_height;
    let background :=
      Image_new (Z.to_nat (width self)) (Z.to_nat (height self)) (0, 0, 0) in
    let paste_x := (width self - new_width) / 2 in
    let paste_y := (height self - new_height) / 2 in
    Ok (paste_image background img_resized paste_x paste_y).

(** A slide: the composited canvas and its duration.  The text clips laid
    over the canvas are not modelled. *)
Record Slide : Type := mkSlide {
  sl_canvas : Image rgb;
  sl_duration : Q
}.

(** [_create_slide_with_footer(image_path, slide_duration)] *)
Definition _create_slide_with_footer `{Resampling} (self : SlideShowGenerator)
    (w : World) (image_path : string) (slide_duration : Q) : M Slide :=
  emit (EvImageOpen image_path);;
  img ← lift (image_open w image_path);
  background ← lift (letterbox self img);
  mret (mkSlide (paste_footer self background) slide_duration).

(** ** The catalog filter *)

Definition IMAGE_EXTENSIONS : list string :=
  [".jpg"; ".jpeg"; ".png"; ".bmp"; ".gif"].

(** Iterating over a template value: the elements of a list, the
    characters of a string. *)
Definition iterate (v : value) : list string :=
  match v with
  | VList l => l
  | VStr s => (fun c => String c EmptyString) <$> list_ascii_of_string s
  end.

(** [any(f.startswith(f"{img}.") for img in keys)] *)
Definition starts_with_key (f : string) (keys : list string) : bool :=
  existsb (fun img => startswith f (img +:+ ".")) keys.

(** The condition of the list comprehension for one file name; the
    template is looked up only when the extension matches. *)
Definition is_singer_image (self : SlideShowGenerator) (f : string) : result bool :=
  if endswith_any (lower f) IMAGE_EXTENSIONS then
    keys ← getitem (song_info self) "Singers Images";
    mret (starts_with_key f (iterate keys))
  else mret false.

(** [[os.path.join(images_dir, f) for f in listing if ...]] *)
Fixpoint select_images (self : SlideShowGenerator) (listing : list string) :
    result (list string) :=
  match listing with
  | [] => mret []
  | f :: rest =>
      keep ← is_singer_image self f;
      selected ← select_images self rest;
      mret (if keep : bool then os_path_join (images_dir self) f :: selected else selected)
  end.

(** ** The sequence planner *)

Section Planner.
Context {G : Type} `{RandomSource G}.

(** [for _ in range(n): shuffled = image_files.copy(); random.shuffle(shuffled);
    extended.extend(shuffled)] *)
Fixpoint extend_shuffled (n : nat) (image_files extended : list string) (g : G) :
    list string * G :=
  match n with
  | O => (extended, g)
  | S n' =>
      let '(shuffled, g') := shuffle image_files g in
      extend_shuffled n' image_files (extended ++ shuffled) g'
  end.

Definition slides_needed_of (total_duration slide_duration : Q) : Z :=
  math_ceil (total_duration / slide_duration).

Definition repeats_needed_of (slides_needed : Z) (image_files : list string) : Z :=
  math_ceil (inject_Z slides_needed / inject_Z (Z.of_nat (length image_files))).

(** The list before truncation: the poster, then the shuffle passes. *)
Definition extended_image_list (image_files : list string) (poster : string)
    (total_duration slide_duration : Q) (g : G) : list string * G :=
  let slides_needed := slides_needed_of total_duration slide_duration in
  let repeats_needed := repeats_needed_of slides_needed image_files in
  extend_shuffled (Z.to_nat repeats_needed) image_files [poster] g.

(** The plan: [extended_image_list[:slides_needed]]. *)
Definition plan_slides (image_files : list string) (poster : string)
    (total_duration slide_duration : Q) (g : G) : list string * G :=
  let '(extended, g') :=
    extended_image_list image_files poster total_duration slide_duration g in
  (py_slice_to extended (slides_needed_of total_duration slide_duration), g').

End Planner.

(** ** The timeline *)

(** A video clip: the slides it plays in order, its duration and its audio
    track. *)
Record VideoClip : Type := mkClip {
  clip_slides : list Slide;
  clip_duration : Q;
  clip_audio : option string
}.

(** The last element of [np.cumsum([0] + [clip.duration for clip in clips])]. *)
Definition total_of (clips : list Slide) : Q :=
  foldl (fun acc clip => (acc + sl_duration clip)%Q) 0%Q clips.

(** [concatenate_videoclips(clips, method='chain')]: it takes the maximum of
    the clip sizes, which raises on an empty list. *)
Definition concatenate_videoclips (clips : list Slide) : result VideoClip :=
  match clips with
  | [] => Error (ValueError "max() arg is an empty sequence")
  | _ :: _ => Ok (mkClip clips (total_of clips) None)
  end.

(** [clip.with_duration(d)] *)
Definition with_duration (clip : VideoClip) (d : Q) : VideoClip :=
  mkClip (clip_slides clip) d (clip_audio clip).

(** [clip.with_audio(audio)] *)
Definition with_audio (clip : VideoClip) (audio : string) : VideoClip :=
  mkClip (clip_slides clip) (clip_duration clip) (Some audio).

(** [if final_clip.duration > total_duration:
       final_clip = final_clip.with_duration(total_duration)] *)
Definition trim_to_audio (final_clip : VideoClip) (total_duration : Q) : VideoClip :=
  if Qltb total_duration (clip_duration final_clip) then
    with_duration final_clip total_duration
  else final_clip.

(** ** The pipeline *)

(** [f"{v}"] *)
Definition format_value (v : value) : string :=
  match v with
  | VStr s => s
  | VList l =>
      "[" +:+ foldr (fun x acc =>
                if decide (acc = "") then "'" +:+ x +:+ "'"
                else "'" +:+ x +:+ "', " +:+ acc) "" l +:+ "]"
  end.

(** [download_image(url, destination_folder, filename)]: the exit status of
    [wget] is not looked at. *)
Definition download_image (w : World) (url : value) (destination_folder filename : string) :
    M unit :=
  match url with
  | VList _ => raise (TypeError "expected str, bytes or os.PathLike object, not list")
  | VStr url =>
      let command := ["wget"; "-O"; destination_folder +:+ "/" +:+ filename; url] in
      match run_process w command with
      | None => raise (FileNotFoundError "wget")
      | Some status => emit (EvRun command status)
      end
  end.

(** [[self._create_slide_with_footer(p, slide_duration) for p in plan]] *)
Fixpoint render_all `{Resampling} (self : SlideShowGenerator) (w : World)
    (plan : list string) (slide_duration : Q) : M (list Slide) :=
  match plan with
  | [] => mret []
  | img_path :: rest =>
      clip ← _create_slide_with_footer self w img_path slide_duration;
      clips ← render_all self w rest slide_duration;
      mret (clip :: clips)
  end.

Section Pipeline.
Context {G : Type} `{RandomSource G} `{Resampling}.

(** The second half of [create_music_driven_slideshow], from the rendering
    of the clips to the return: the plan is rendered, concatenated, trimmed
    to the audio, a frame is saved when the capture time lies inside the
    clip, and the video is written. *)
Definition assemble_timeline (self : SlideShowGenerator) (w : World) (plan : list string)
    (total_duration slide_duration capture_time : Q) : M (string * string) :=
  clips ← render_all self w plan slide_duration;
  emit (EvConcatenate (length clips));;
  final_clip ← lift (concatenate_videoclips clips);
  let final_clip := trim_to_audio final_clip total_duration in
  (if Qltb capture_time (clip_duration final_clip) then
     emit (EvSaveFrame (frame_path self) capture_time)
   else mret tt);;
  let final_clip := with_audio final_clip (music_path self) in
  emit (EvWriteVideo (video_path self) (clip_duration final_clip));;
  emit EvClose;;
  mret (video_path self, frame_path self).

(** The part after the download: the audio is opened, the plan is made
    and handed to the assembly. *)
Definition plan_and_assemble (self : SlideShowGenerator) (w : World) (g : G)
    (image_files : list string) (poster_name : string)
    (slide_duration capture_time : Q) : M (string * string) :=
  emit (EvAudioOpen (music_path self));;
  total_duration ← lift (audio_open w (music_path self));
  if Qeq_bool slide_duration 0 then raise ZeroDivisionError
  else
    let poster := os_path_join (output_path self) poster_name in
    let plan := (plan_slides image_files poster total_duration slide_duration g).1 in
    emit (EvPlanned plan);;
    assemble_timeline self w plan total_duration slide_duration capture_time.

(** [create_music_driven_slideshow(slide_duration, capture_time)], run with
    the generator state [g]. *)
Definition create_music_driven_slideshow (self : SlideShowGenerator) (w : World) (g : G)
    (slide_duration capture_time : Q) : M (string * string) :=
  listing ← lift (listdir w (images_dir self));
  image_files ← lift (select_images self listing);
  if decide (image_files = []) then
    raise (ValueError "No image files found in the specified directory")
  else
    url ← lift (getitem (song_info self) "Poster Image");
    song ← lift (getitem (song_info self) "Song");
    let poster_name := format_value song +:+ " Poster.jpg" in
    download_image w url (output_path self) poster_name;;
    plan_and_assemble self w g image_files poster_name slide_duration capture_time.

End Pipeline.

(** * Definitions used in the statements *)

(** ** Example inputs *)

(** A world in which every path exists. *)
Definition demo_world : World := {|
  path_exists := fun _ => true;
  listdir := fun _ => Ok ["asha.1.jpg"; "asha.2.PNG"; "kishore.1.jpeg"; "notes.txt"; "rafi.1.jpg"];
  run_process := fun _ => Some 0;
  image_open := fun path => Error (UnidentifiedImageError path);
  audio_open := fun _ => Ok (95 # 1)%Q
|}.

Definition demo_song_info : gmap string value :=
  <["Song" := VStr "Tune"]>
  (<["Poster Image" := VStr "http://example.org/poster.jpg"]>
  (<["Singers Images" := VList ["asha"; "kishore"]]> ∅)).

Definition demo_generator : SlideShowGenerator := {|
  images_dir := "Singer Images";
  music_path := "tune.mp3";
  output_path := "Output/";
  frame_path := "Output/Tune.jpg";
  video_path := "Output/Tune.mp4";
  width := 1920;
  height := 1080;
  footer_height := 120;
  song_info := demo_song_info
|}.

(** The demo generator for a singer with no image in the directory. *)
Definition lata_generator : SlideShowGenerator := {|
  images_dir := "Singer Images";
  music_path := "tune.mp3";
  output_path := "Output/";
  frame_path := "Output/Tune.jpg";
  video_path := "Output/Tune.mp4";
  width := 1920;
  height := 1080;
  footer_height := 120;
  song_info := <["Singers Images" := VList ["lata"]]> demo_song_info
|}.

(** A world without the image directory. *)
Definition empty_world : World := {|
  path_exists := fun _ => false;
  listdir := fun path => Error (FileNotFoundError path);
  run_process := fun _ => None;
  image_open := fun path => Error (FileNotFoundError path);
  audio_open := fun path => Error (OSError path)
|}.

(** ** The catalog filter, in the words of the specification *)

(** The raster extensions, as the specification lists them. *)
Definition RASTER_EXTENSIONS : list string := ["jpg"; "jpeg"; "png"; "bmp"; "gif"].

(** The file name ends, whatever its letter case, in a dot and one of the
    raster extensions. *)
Definition has_raster_extension (f : string) : Prop :=
  exists ext stem, ext ∈ RASTER_EXTENSIONS /\ lower f = stem +:+ "." +:+ ext.

(** The file name begins with one of the keys followed by the separator. *)
Definition begins_with_singer_key (keys : list string) (f : string) : Prop :=
  exists key rest, key ∈ keys /\ f = key +:+ "." +:+ rest.

(** ** The passes of the planner *)

Section PlannerPasses.
Context {G : Type} `{RandomSource G}.

(** The shuffle passes of the loop, one after the other: each pass shuffles
    the full list with the generator state the pass before it left. *)
Fixpoint shuffle_passes (n : nat) (image_files : list string) (g : G) :
    list (list string) :=
  match n with
  | O => []
  | S n' =>
      let '(shuffled, g') := shuffle image_files g in
      shuffled :: shuffle_passes n' image_files g'
  end.

(** The generator state after [n] passes. *)
Fixpoint rng_after (n : nat) (image_files : list string) (g : G) : G :=
  match n with
  | O => g
  | S n' => rng_after n' image_files (shuffle image_files g).2
  end.

End PlannerPasses.

(** A computation only appends to the log, and what it appends and returns
    does not depend on the log it starts from. *)
Definition appends {A : Type} (m : M A) : Prop :=
  forall log, m log = (log ++ (m []).1, (m []).2).

(** ** Worlds and logs *)



(** The [wget] command line of the poster download. *)
Definition wget_command (self : SlideShowGenerator) (url : string) (song : value) :
    list string :=
  ["wget"; "-O"; output_path self +:+ "/" +:+ (format_value song +:+ " Poster.jpg"); url].

(** The demo world with an audio file of length 0. *)
Definition silent_world : World := {|
  path_exists := path_exists demo_world;
  listdir := listdir demo_world;
  run_process := run_process demo_world;
  image_open := image_open demo_world;
  audio_open := fun _ => Ok 0%Q
|}.

(** What the specification asks of a run whose plan is empty: the plan is
    never handed to the timeline assembly. *)
Definition never_assembled (log : list Event) : Prop :=
  forall n, EvConcatenate n ∉ log.


(** ** The footer gradient *)

(** The value the specification gives: [round(160 * (y / fh) ^ (3/2))],
    rounding to the nearest integer, that is the integer part of
    [(2 * 160 * (y/fh)^(3/2) + 1) / 2]; no value is half-way between two
    integers for [fh = 120]. *)
Definition footer_alpha_rounded (fh y : Z) : Z :=
  (Z.sqrt (4 * 160 ^ 2 * y ^ 3 / fh ^ 3) + 1) / 2.

(** [min(255, max(0, a))] *)
Definition clamp_255 (a : Z) : Z := Z.min 255 (Z.max 0 a).

(** The outer loop over the first [n] rows. *)
Definition footer_rows (w n : nat) (fh : Z) (footer : Image rgba) : Image rgba :=
  foldl (fun im y => footer_fill_row w y (footer_alpha fh (Z.of_nat y)) im) footer (seq 0 n).

(** ** Pixels *)

(** Every channel of the pixel is a byte. *)
Definition valid_rgb (p : rgb) : Prop :=
  let '(r, g, b) := p in 0 <= r <= 255 /\ 0 <= g <= 255 /\ 0 <= b <= 255.

(** No channel of [q] is brighter than in [p]. *)
Definition rgb_le (q p : rgb) : Prop :=
  let '(r, g, b) := p in let '(r', g', b') := q in r' <= r /\ g' <= g /\ b' <= b.


(** * Properties *)

(** ** Arithmetic of durations *)

Lemma Qdiv_mult_cancel (d s : Q) : ~ (s == 0)%Q -> (d / s * s == d)%Q.
Proof. intros Hs. unfold Qdiv. rewrite <- Qmult_assoc, (Qmult_comm (/ s)), Qmult_inv_r by exact Hs. apply Qmult_1_r. Qed.



(** [ceil(d/s) * s >= d] for a positive divisor. *)
Lemma math_ceil_div_mult_ge (d s : Q) :
  (0 < s)%Q -> (d <= inject_Z (math_ceil (d / s)) * s)%Q.
Proof.
  intros Hs.
  assert (Hne : ~ (s == 0)%Q).
  { intros He. rewrite He in Hs. exact (Qlt_irrefl 0 Hs). }
  rewrite <- (Qdiv_mult_cancel d s Hne) at 1.
  apply Qmult_le_compat_r; [apply Qle_ceiling | apply Qlt_le_weak; exact Hs].
Qed.


(** ** The shuffle *)

Section ShuffleProperties.
Context {G : Type} `{RandomSource G} {A : Type}.

Lemma swap_Permutation (x : list A) (i j : nat) : swap x i j ≡ₚ x.
Proof.
  unfold swap. destruct (x !! j) as [xj|] eqn:Hj; [|reflexivity].
  destruct (x !! i) as [xi|] eqn:Hi; [|reflexivity].
  by apply Permutation_insert_swap.
Qed.

Lemma shuffle_from_Permutation (i : nat) (x : list A) (g : G) :
  (shuffle_from i x g).1 ≡ₚ x.
Proof.
  revert x g. induction i as [|i IH]; intros x g; simpl; [reflexivity|].
  destruct (randbelow (S (S i)) g) as [j g'].
  rewrite IH. apply swap_Permutation.
Qed.

Lemma shuffle_Permutation (x : list A) (g : G) : (shuffle x g).1 ≡ₚ x.
Proof. apply shuffle_from_Permutation. Qed.

Lemma shuffle_length (x : list A) (g : G) :
  length (shuffle x g).1 = length x.
Proof. apply Permutation_length, shuffle_Permutation. Qed.

End ShuffleProperties.

(** ** Strings *)

Lemma append_cons (c : ascii) (s t : string) :
  String c s +:+ t = String c (s +:+ t).
Proof. reflexivity. Qed.

Lemma append_nil_l (t : string) : "" +:+ t = t.
Proof. reflexivity. Qed.

Lemma append_assoc (s t u : string) : (s +:+ t) +:+ u = s +:+ (t +:+ u).
Proof.
  induction s as [|c s IH]; [reflexivity|].
  rewrite !append_cons, IH. reflexivity.
Qed.

Lemma startswith_spec (s p : string) :
  startswith s p = true <-> exists rest, s = p +:+ rest.
Proof.
  revert s. induction p as [|a p IH]; intros s; simpl.
  - split; [intros _; exists s; reflexivity | intros _; reflexivity].
  - destruct s as [|b s].
    + split; [done | intros [rest Hr]; rewrite append_cons in Hr; discriminate Hr].
    + destruct (decide (a = b)) as [->|Hne].
      * rewrite IH. split; intros [rest Hr]; exists rest.
        -- rewrite append_cons, Hr. reflexivity.
        -- rewrite append_cons in Hr. by injection Hr.
      * split; [done|].
        intros [rest Hr]. rewrite append_cons in Hr. injection Hr. congruence.
Qed.

Lemma endswith_spec (s p : string) :
  endswith s p = true <-> exists stem, s = stem +:+ p.
Proof.
  induction s as [|c s IH]; simpl.
  - destruct (decide ("" = p)) as [<-|Hne].
    + split; [intros _; exists ""; reflexivity | done].
    + split; [done|]. intros [stem Hs]. destruct stem as [|d stem].
      * rewrite append_nil_l in Hs. congruence.
      * rewrite append_cons in Hs. discriminate Hs.
  - destruct (decide (String c s = p)) as [<-|Hne].
    + split; [intros _; exists ""; reflexivity | done].
    + rewrite IH. split.
      * intros [stem Hs]. exists (String c stem). rewrite append_cons, Hs. reflexivity.
      * intros [stem Hs]. destruct stem as [|d stem].
        -- rewrite append_nil_l in Hs. congruence.
        -- rewrite append_cons in Hs. injection Hs as _ Hs. by exists stem.
Qed.

Lemma endswith_any_spec (s : string) (ps : list string) :
  endswith_any s ps = true <-> exists p, p ∈ ps /\ exists stem, s = stem +:+ p.
Proof.
  unfold endswith_any. rewrite existsb_exists. split.
  - intros (p & Hin & He). exists p. rewrite list_elem_of_In, <- endswith_spec. done.
  - intros (p & Hin & He). exists p. rewrite <- list_elem_of_In, endswith_spec. done.
Qed.

(** ** Construction of the generator *)

Lemma init_Some_inv (w : World) (d m o : string) (info : gmap string value)
    (self : SlideShowGenerator) :
  __init__ w d m o (Some info) = Ok self ->
  exists s, info !! "Song" = Some (VStr s) /\ song_info self = info.
Proof.
  unfold __init__, getitem. intros Hinit.
  destruct (info !! "Song") as [[s|l]|] eqn:Hsong; simpl in Hinit; try discriminate.
  exists s. split; [reflexivity|].
  destruct (negb (path_exists w d)); [discriminate|].
  destruct (negb (path_exists w m)); [discriminate|].
  injection Hinit as <-. simpl.
  destruct (decide (info = ∅)) as [->|]; [|reflexivity].
  rewrite lookup_empty in Hsong. discriminate.
Qed.

(** Every generator that [__init__] returns has the fixed canvas size and
    footer height. *)
Lemma init_dimensions (w : World) (d m o : string) (si : option (gmap string value))
    (self : SlideShowGenerator) :
  __init__ w d m o si = Ok self ->
  width self = 1920 /\ height self = 1080 /\ footer_height self = 120.
Proof.
  unfold __init__, getitem. destruct si as [info|]; [|discriminate].
  destruct (info !! "Song") as [[s|l]|]; simpl; try discriminate.
  destruct (negb (path_exists w d)); [discriminate|].
  destruct (negb (path_exists w m)); [discriminate|].
  by intros [= <-].
Qed.

(** C9: constructing the generator with [song_info = None] always raises
    (the subscript [song_info['Song']] comes before the fallback), and
    every successful construction was given a mapping that holds a string
    under ['Song']; the generator then keeps that mapping, never the
    fallback default. *)
Theorem init_requires_song (w : World) (d m o : string) :
  (exists msg, __init__ w d m o None = Error (TypeError msg)) /\
  (forall (si : option (gmap string value)) (self : SlideShowGenerator),
     __init__ w d m o si = Ok self ->
     exists info s,
       si = Some info /\ info !! "Song" = Some (VStr s) /\ song_info self = info).
Proof.
  split; [eexists; reflexivity|].
  intros [info|] self Hinit; [|discriminate].
  destruct (init_Some_inv _ _ _ _ _ _ Hinit) as (s & Hs & Hself).
  by exists info, s.
Qed.

Example demo_init :
  __init__ demo_world "Singer Images" "tune.mp3" "Output/" (Some demo_song_info)
  = Ok demo_generator.
Proof. reflexivity. Qed.

Lemma init_requires_song_witness :
  exists info s,
    Some demo_song_info = Some info /\ info !! "Song" = Some (VStr s) /\
    song_info demo_generator = info.
Proof.
  exact (proj2 (init_requires_song demo_world "Singer Images" "tune.mp3" "Output/")
           (Some demo_song_info) demo_generator eq_refl).
Defined.

(** ** The catalog filter *)

Lemma IMAGE_EXTENSIONS_dotted (p : string) :
  p ∈ IMAGE_EXTENSIONS <-> exists ext, ext ∈ RASTER_EXTENSIONS /\ p = "." +:+ ext.
Proof.
  unfold IMAGE_EXTENSIONS, RASTER_EXTENSIONS. split.
  - intros Hp. repeat (apply elem_of_cons in Hp as [->|Hp];
      [eexists; split; [|reflexivity]; set_solver|]).
    by apply elem_of_nil in Hp.
  - intros (ext & Hext & ->).
    repeat (apply elem_of_cons in Hext as [->|Hext]; [set_solver|]).
    by apply elem_of_nil in Hext.
Qed.

Lemma has_raster_extension_correct (f : string) :
  endswith_any (lower f) IMAGE_EXTENSIONS = true <-> has_raster_extension f.
Proof.
  rewrite endswith_any_spec. unfold has_raster_extension. split.
  - intros (p & Hp & stem & Hstem).
    apply IMAGE_EXTENSIONS_dotted in Hp as (ext & Hext & ->). by exists ext, stem.
  - intros (ext & stem & Hext & Hstem). exists ("." +:+ ext).
    split; [apply IMAGE_EXTENSIONS_dotted; by exists ext | by exists stem].
Qed.

Lemma starts_with_key_correct (f : string) (keys : list string) :
  starts_with_key f keys = true <-> begins_with_singer_key keys f.
Proof.
  unfold starts_with_key, begins_with_singer_key. rewrite existsb_exists. split.
  - intros (key & Hin & Hs). apply startswith_spec in Hs as [rest Hrest].
    exists key, rest. rewrite list_elem_of_In. split; [done|].
    by rewrite Hrest, append_assoc.
  - intros (key & rest & Hin & Hf). exists key. rewrite <- list_elem_of_In.
    split; [done|]. apply startswith_spec. exists rest. by rewrite Hf, append_assoc.
Qed.

Lemma select_images_spec (self : SlideShowGenerator) (keys listing : list string) :
  song_info self !! "Singers Images" = Some (VList keys) ->
  exists selected,
    select_images self listing = Ok selected /\
    forall p, p ∈ selected <->
      exists f, f ∈ listing /\ p = os_path_join (images_dir self) f /\
                has_raster_extension f /\ begins_with_singer_key keys f.
Proof.
  intros Hkeys. induction listing as [|f rest (sel & Hsel & IH)].
  - exists []. split; [reflexivity|]. intros p. split.
    + intros Hp. by apply elem_of_nil in Hp.
    + intros (f & Hf & _). by apply elem_of_nil in Hf.
  - assert (Hone : exists keep, is_singer_image self f = Ok keep /\
        (keep = true <-> has_raster_extension f /\ begins_with_singer_key keys f)).
    { unfold is_singer_image.
      destruct (endswith_any (lower f) IMAGE_EXTENSIONS) eqn:Hext.
      - unfold getitem. rewrite Hkeys. eexists. split; [reflexivity|]. simpl.
        rewrite starts_with_key_correct. apply has_raster_extension_correct in Hext.
        tauto.
      - exists false. split; [reflexivity|]. split; [done|].
        intros [Hx _]. apply has_raster_extension_correct in Hx. congruence. }
    destruct Hone as (keep & Hkeep & Hiff).
    exists (if keep then os_path_join (images_dir self) f :: sel else sel).
    split; [simpl; rewrite Hkeep; simpl; rewrite Hsel; reflexivity|].
    intros p. destruct keep.
    + rewrite elem_of_cons, IH. split.
      * intros [->|(f' & Hin & Hrest)].
        -- exists f. split; [left|]. split; [reflexivity | by apply Hiff].
        -- exists f'. split; [by right | done].
      * intros (f' & Hin & -> & Hprop). apply elem_of_cons in Hin as [->|Hin].
        -- by left.
        -- right. by exists f'.
    + rewrite IH. split.
      * intros (f' & Hin & Hrest). exists f'. split; [by right | done].
      * intros (f' & Hin & -> & Hprop). apply elem_of_cons in Hin as [->|Hin].
        -- apply Hiff in Hprop. discriminate.
        -- by exists f'.
Qed.

Section CatalogContract.
Context {G : Type} `{RandomSource G} `{Resampling}.

Lemma empty_catalog_raises (self : SlideShowGenerator) (w : World) (g : G)
    (slide_duration capture_time : Q) (listing : list string) :
  listdir w (images_dir self) = Ok listing ->
  select_images self listing = Ok [] ->
  run (create_music_driven_slideshow self w g slide_duration capture_time)
  = ([], Error (ValueError "No image files found in the specified directory")).
Proof.
  intros Hlist Hsel. unfold run, create_music_driven_slideshow, lift.
  unfold mbind, M_bind. rewrite Hlist, Hsel. reflexivity.
Qed.

Lemma missing_directory_raises (w : World) (d m o : string)
    (info : gmap string value) (s : string) :
  info !! "Song" = Some (VStr s) ->
  path_exists w d = false ->
  __init__ w d m o (Some info)
  = Error (ValueError ("Image directory " +:+ d +:+ " does not exist")).
Proof.
  intros Hsong Hd. unfold __init__, getitem. rewrite Hsong. simpl.
  rewrite Hd. reflexivity.
Qed.

(** C6: with the singer keys [keys] in the template and [listing] the
    content of the image directory, the filter returns exactly the paths of
    the files of the directory whose name, in lower case, ends in a dot and
    one of jpg, jpeg, png, bmp, gif and whose name begins with one of the
    keys followed by a dot.  An empty result raises [ValueError] before any
    event has been logged, and a directory that does not exist raises
    [ValueError] at construction. *)
Theorem catalog_filter_contract (self : SlideShowGenerator) (w : World)
    (keys listing : list string) :
  song_info self !! "Singers Images" = Some (VList keys) ->
  listdir w (images_dir self) = Ok listing ->
  (exists selected,
     select_images self listing = Ok selected /\
     (forall p, p ∈ selected <->
        exists f, f ∈ listing /\ p = os_path_join (images_dir self) f /\
                  has_raster_extension f /\ begins_with_singer_key keys f) /\
     (selected = [] ->
      forall (g : G) (slide_duration capture_time : Q),
        run (create_music_driven_slideshow self w g slide_duration capture_time)
        = ([], Error (ValueError "No image files found in the specified directory")))) /\
  (forall (d m o : string) (info : gmap string value) (s : string),
     info !! "Song" = Some (VStr s) ->
     path_exists w d = false ->
     exists msg, __init__ w d m o (Some info) = Error (ValueError msg)).
Proof.
  intros Hkeys Hlist. split.
  - destruct (select_images_spec self keys listing Hkeys) as (sel & Hsel & Hiff).
    exists sel. split; [exact Hsel|]. split; [exact Hiff|].
    intros -> g sd ct. by apply empty_catalog_raises with listing.
  - intros d m o info s Hsong Hd. eexists. by apply missing_directory_raises with s.
Qed.

End CatalogContract.

Example demo_select_images :
  select_images demo_generator
    ["asha.1.jpg"; "asha.2.PNG"; "kishore.1.jpeg"; "notes.txt"; "rafi.1.jpg"]
  = Ok ["Singer Images/asha.1.jpg"; "Singer Images/asha.2.PNG";
        "Singer Images/kishore.1.jpeg"].
Proof. reflexivity. Qed.

(** A key is matched with its letter case, and must be followed by a dot. *)
Example demo_select_images_case :
  select_images demo_generator ["Asha.1.jpg"; "asha1.jpg"; "asha.jpg"; "asha.1.jpg.txt"]
  = Ok ["Singer Images/asha.jpg"].
Proof. reflexivity. Qed.

(** No file of the directory belongs to the singer: the run raises before
    it has done anything. *)
Example demo_empty_catalog :
  run (create_music_driven_slideshow (G := nat) lata_generator demo_world 7%nat
         (30 # 1) (10 # 1))
  = ([], Error (ValueError "No image files found in the specified directory")).
Proof. reflexivity. Qed.

(** The image directory does not exist: the construction raises. *)
Example demo_missing_directory :
  __init__ empty_world "Singer Images" "tune.mp3" "Output/" (Some demo_song_info)
  = Error (ValueError "Image directory Singer Images does not exist").
Proof. reflexivity. Qed.

Lemma catalog_filter_contract_witness :
  (exists selected,
     select_images demo_generator
       ["asha.1.jpg"; "asha.2.PNG"; "kishore.1.jpeg"; "notes.txt"; "rafi.1.jpg"]
     = Ok selected /\
     (forall p, p ∈ selected <->
        exists f, f ∈ ["asha.1.jpg"; "asha.2.PNG"; "kishore.1.jpeg"; "notes.txt"; "rafi.1.jpg"] /\
                  p = os_path_join "Singer Images" f /\
                  has_raster_extension f /\
                  begins_with_singer_key ["asha"; "kishore"] f) /\
     (selected = [] ->
      forall (g : nat) (slide_duration capture_time : Q),
        run (create_music_driven_slideshow demo_generator demo_world g
               slide_duration capture_time)
        = ([], Error (ValueError "No image files found in the specified directory")))) /\
  (forall (d m o : string) (info : gmap string value) (s : string),
     info !! "Song" = Some (VStr s) ->
     path_exists demo_world d = false ->
     exists msg, __init__ demo_world d m o (Some info) = Error (ValueError msg)).
Proof.
  exact (catalog_filter_contract (G := nat) demo_generator demo_world
           ["asha"; "kishore"]
           ["asha.1.jpg"; "asha.2.PNG"; "kishore.1.jpeg"; "notes.txt"; "rafi.1.jpg"]
           eq_refl eq_refl).
Defined.

(** ** The sequence planner *)

Section PlannerProperties.
Context {G : Type} `{RandomSource G}.

Lemma extend_shuffled_passes (n : nat) (image_files extended : list string) (g : G) :
  extend_shuffled n image_files extended g
  = (extended ++ concat (shuffle_passes n image_files g), rng_after n image_files g).
Proof.
  revert extended g. induction n as [|n IH]; intros extended g; simpl.
  - by rewrite app_nil_r.
  - destruct (shuffle image_files g) as [shuffled g'] eqn:Hs. simpl.
    rewrite IH, <- app_assoc. reflexivity.
Qed.

Lemma shuffle_passes_length (n : nat) (image_files : list string) (g : G) :
  length (shuffle_passes n image_files g) = n.
Proof.
  revert g. induction n as [|n IH]; intros g; simpl; [reflexivity|].
  destruct (shuffle image_files g) as [shuffled g']. simpl. by rewrite IH.
Qed.

Lemma shuffle_passes_lookup (n i : nat) (image_files : list string) (g : G) :
  (i < n)%nat ->
  shuffle_passes n image_files g !! i
  = Some (shuffle image_files (rng_after i image_files g)).1.
Proof.
  revert i g. induction n as [|n IH]; intros i g Hi; [lia|]. simpl.
  destruct (shuffle image_files g) as [shuffled g'] eqn:Hs.
  destruct i as [|i]; simpl.
  - by rewrite Hs.
  - rewrite Hs. simpl. apply IH. lia.
Qed.

Lemma shuffle_passes_Permutation (n : nat) (image_files : list string) (g : G) :
  Forall (fun pass => pass ≡ₚ image_files) (shuffle_passes n image_files g).
Proof.
  revert g. induction n as [|n IH]; intros g; simpl; [constructor|].
  destruct (shuffle image_files g) as [shuffled g'] eqn:Hs.
  constructor; [|apply IH].
  change shuffled with (shuffled, g').1. rewrite <- Hs. apply shuffle_Permutation.
Qed.



Lemma extended_image_list_passes (image_files : list string) (poster : string)
    (total_duration slide_duration : Q) (g : G) :
  (extended_image_list image_files poster total_duration slide_duration g).1
  = poster :: concat (shuffle_passes
      (Z.to_nat (repeats_needed_of (slides_needed_of total_duration slide_duration) image_files))
      image_files g).
Proof. unfold extended_image_list. by rewrite extend_shuffled_passes. Qed.

Lemma plan_slides_slice (image_files : list string) (poster : string)
    (total_duration slide_duration : Q) (g : G) :
  (plan_slides image_files poster total_duration slide_duration g).1
  = py_slice_to
      (extended_image_list image_files poster total_duration slide_duration g).1
      (slides_needed_of total_duration slide_duration).
Proof.
  unfold plan_slides.
  by destruct (extended_image_list image_files poster total_duration slide_duration g).
Qed.




(** C8: the body before truncation is the concatenation of
    [repeats_needed] passes; each pass is a permutation of the full image
    list, so without duplicates when the list has none; pass [i] is the
    shuffle of the full list from the generator state the passes before it
    left; the plan is the poster and a prefix of the passes. *)
Theorem shuffle_passes_permutations (image_files : list string) (poster : string)
    (total_duration slide_duration : Q) (g : G) :
  exists passes,
    (extended_image_list image_files poster total_duration slide_duration g).1
    = poster :: concat passes /\
    length passes
    = Z.to_nat (repeats_needed_of (slides_needed_of total_duration slide_duration) image_files) /\
    Forall (fun pass => pass ≡ₚ image_files) passes /\
    (NoDup image_files -> Forall NoDup passes) /\
    (forall i pass, passes !! i = Some pass ->
       pass = (shuffle image_files (rng_after i image_files g)).1) /\
    (plan_slides image_files poster total_duration slide_duration g).1
    = py_slice_to (poster :: concat passes)
        (slides_needed_of total_duration slide_duration).
Proof.
  set (r := Z.to_nat (repeats_needed_of
    (slides_needed_of total_duration slide_duration) image_files)).
  exists (shuffle_passes r image_files g).
  pose proof (shuffle_passes_Permutation r image_files g) as Hperm.
  split; [apply extended_image_list_passes|].
  split; [apply shuffle_passes_length|].
  split; [exact Hperm|]. split; [|split].
  - intros Hnd. eapply Forall_impl; [exact Hperm|].
    intros pass Hp. simpl in Hp. by rewrite Hp.
  - intros i pass Hi.
    assert (i < r)%nat as Hlt.
    { apply lookup_lt_Some in Hi. by rewrite shuffle_passes_length in Hi. }
    rewrite (shuffle_passes_lookup r i image_files g Hlt) in Hi. congruence.
  - by rewrite plan_slides_slice, extended_image_list_passes.
Qed.

End PlannerProperties.

(** The specification's example: 95 s of audio, 30 s slides and a catalog
    of four images give four slides from one pass: the poster and the first
    three images of the shuffle. *)
Example plan_95_30 :
  slides_needed_of (95 # 1) (30 # 1) = 4 /\
  repeats_needed_of 4 ["a.1.jpg"; "b.1.jpg"; "c.1.jpg"; "d.1.jpg"] = 1 /\
  (extended_image_list (G := nat) ["a.1.jpg"; "b.1.jpg"; "c.1.jpg"; "d.1.jpg"]
     "poster" (95 # 1) (30 # 1) 7%nat).1
  = ["poster"; "a.1.jpg"; "c.1.jpg"; "b.1.jpg"; "d.1.jpg"] /\
  (plan_slides (G := nat) ["a.1.jpg"; "b.1.jpg"; "c.1.jpg"; "d.1.jpg"]
     "poster" (95 # 1) (30 # 1) 7%nat).1
  = ["poster"; "a.1.jpg"; "c.1.jpg"; "b.1.jpg"].
Proof. vm_compute. repeat split. Qed.

(** Three passes over the same catalog from one generator: each is a new
    shuffle, the first is not repeated. *)
Example passes_differ :
  shuffle_passes (G := nat) 3%nat ["a.1.jpg"; "b.1.jpg"; "c.1.jpg"; "d.1.jpg"] 7%nat
  = [["a.1.jpg"; "c.1.jpg"; "b.1.jpg"; "d.1.jpg"];
     ["b.1.jpg"; "c.1.jpg"; "d.1.jpg"; "a.1.jpg"];
     ["d.1.jpg"; "c.1.jpg"; "b.1.jpg"; "a.1.jpg"]].
Proof. vm_compute. reflexivity. Qed.


(** ** The timeline *)

Lemma Qltb_true (a b : Q) : Qltb a b = true <-> (a < b)%Q.
Proof.
  unfold Qltb. rewrite negb_true_iff. split.
  - intros Hb. apply Qnot_le_lt. intros Hle. apply Qle_bool_iff in Hle. congruence.
  - intros Hlt. destruct (Qle_bool b a) eqn:Hb; [|reflexivity].
    apply Qle_bool_iff in Hb. exfalso. exact (Qlt_not_le _ _ Hlt Hb).
Qed.

Lemma Qltb_false (a b : Q) : Qltb a b = false <-> (b <= a)%Q.
Proof.
  unfold Qltb. rewrite negb_false_iff. apply Qle_bool_iff.
Qed.

Lemma foldl_durations (clips : list Slide) (acc slide_duration : Q) :
  Forall (fun clip => sl_duration clip = slide_duration) clips ->
  (foldl (fun acc clip => acc + sl_duration clip) acc clips
   == acc + inject_Z (Z.of_nat (length clips)) * slide_duration)%Q.
Proof.
  intros Hall. revert acc. induction Hall as [|clip clips Hd _ IH]; intros acc.
  - simpl. ring.
  - cbn [foldl length]. rewrite IH, Hd, Nat2Z.inj_succ. unfold Z.succ.
    rewrite inject_Z_plus. ring.
Qed.

Lemma total_of_slides (clips : list Slide) (slide_duration : Q) :
  Forall (fun clip => sl_duration clip = slide_duration) clips ->
  (total_of clips == inject_Z (Z.of_nat (length clips)) * slide_duration)%Q.
Proof.
  intros Hall. unfold total_of. rewrite (foldl_durations _ _ _ Hall). ring.
Qed.


Lemma trim_duration_min (final_clip : VideoClip) (total_duration : Q) :
  (clip_duration (trim_to_audio final_clip total_duration)
   == Qmin (clip_duration final_clip) total_duration)%Q.
Proof.
  unfold trim_to_audio. destruct (Qltb _ _) eqn:Hlt; simpl.
  - apply Qltb_true in Hlt. symmetry. apply Q.min_r. by apply Qlt_le_weak.
  - apply Qltb_false in Hlt. symmetry. by apply Q.min_l.
Qed.



(** ** The event log *)

Lemma bind_Ok_inv {A B : Type} (m : M A) (f : A -> M B) (log log' : list Event) (b : B) :
  (m ≫= f) log = (log', Ok b) ->
  exists a log1, m log = (log1, Ok a) /\ f a log1 = (log', Ok b).
Proof.
  unfold mbind, M_bind. destruct (m log) as [log1 [a|e]]; [|discriminate].
  intros Hf. by exists a, log1.
Qed.

Lemma appends_ret {A : Type} (a : A) : appends (mret a : M A).
Proof. intros log. unfold mret, M_ret. simpl. by rewrite app_nil_r. Qed.

Lemma appends_raise {A : Type} (e : PyError) : appends (raise e : M A).
Proof. intros log. unfold raise. simpl. by rewrite app_nil_r. Qed.

Lemma appends_lift {A : Type} (r : result A) : appends (lift r).
Proof. intros log. unfold lift. simpl. by rewrite app_nil_r. Qed.

Lemma appends_emit (ev : Event) : appends (emit ev).
Proof. intros log. reflexivity. Qed.

Lemma appends_bind {A B : Type} (m : M A) (f : A -> M B) :
  appends m -> (forall a, appends (f a)) -> appends (m ≫= f).
Proof.
  intros Hm Hf log. unfold mbind, M_bind. rewrite (Hm log).
  destruct (m []) as [log1 [a|e]]; simpl.
  - rewrite (Hf a (log ++ log1)), (Hf a log1). simpl.
    by rewrite <- app_assoc.
  - reflexivity.
Qed.

Ltac appends_tac :=
  repeat first
    [ apply appends_bind; [|intros ?]
    | apply appends_ret | apply appends_raise | apply appends_lift | apply appends_emit
    | match goal with |- appends (if ?b then _ else _) => destruct b end
    | match goal with |- appends (match ?x with _ => _ end) => destruct x end ].

(** ** The pipeline *)

Section PipelineProperties.
Context {G : Type} `{RandomSource G} `{Resampling}.

Lemma render_all_appends (self : SlideShowGenerator) (w : World) (plan : list string)
    (slide_duration : Q) :
  appends (render_all self w plan slide_duration).
Proof.
  induction plan as [|p plan IH]; simpl; [apply appends_ret|].
  unfold _create_slide_with_footer. appends_tac. exact IH.
Qed.

Lemma render_all_slides (self : SlideShowGenerator) (w : World) (plan : list string)
    (slide_duration : Q) (log log' : list Event) (clips : list Slide) :
  render_all self w plan slide_duration log = (log', Ok clips) ->
  length clips = length plan /\
  Forall (fun clip => sl_duration clip = slide_duration) clips.
Proof.
  revert log log' clips. induction plan as [|p plan IH]; intros log log' clips; simpl.
  - intros [= <- <-]. by split.
  - intros Hr. apply bind_Ok_inv in Hr as (clip & log1 & Hclip & Hr).
    apply bind_Ok_inv in Hr as (rest & log2 & Hrest & Hr).
    injection Hr as <- <-. apply IH in Hrest as [Hlen Hall].
    split; [simpl; by rewrite Hlen|]. constructor; [|exact Hall].
    unfold _create_slide_with_footer in Hclip.
    apply bind_Ok_inv in Hclip as (? & ? & _ & Hclip).
    apply bind_Ok_inv in Hclip as (? & ? & _ & Hclip).
    apply bind_Ok_inv in Hclip as (? & ? & _ & Hclip).
    by injection Hclip as <- <-.
Qed.

Lemma assemble_timeline_appends (self : SlideShowGenerator) (w : World)
    (plan : list string) (total_duration slide_duration capture_time : Q) :
  appends (assemble_timeline self w plan total_duration slide_duration capture_time).
Proof.
  unfold assemble_timeline. apply appends_bind; [apply render_all_appends|].
  intros clips. appends_tac.
Qed.

Lemma plan_and_assemble_appends (self : SlideShowGenerator) (w : World) (g : G)
    (image_files : list string) (poster_name : string) (slide_duration capture_time : Q) :
  appends (plan_and_assemble self w g image_files poster_name slide_duration capture_time).
Proof.
  unfold plan_and_assemble. appends_tac; apply render_all_appends.
Qed.




(** Once the catalog is filtered and the template holds the poster URL and
    the song, the run is the download, whatever its exit status, followed
    by the planning and the assembly. *)
Lemma run_after_download (self : SlideShowGenerator) (w : World) (g : G)
    (slide_duration capture_time : Q) (listing image_files : list string)
    (url : string) (song : value) (status : Z) :
  listdir w (images_dir self) = Ok listing ->
  select_images self listing = Ok image_files ->
  image_files <> [] ->
  song_info self !! "Poster Image" = Some (VStr url) ->
  song_info self !! "Song" = Some song ->
  run_process w (wget_command self url song) = Some status ->
  run (create_music_driven_slideshow self w g slide_duration capture_time)
  = (EvRun (wget_command self url song) status
       :: (run (plan_and_assemble self w g image_files
                  (format_value song +:+ " Poster.jpg") slide_duration capture_time)).1,
     (run (plan_and_assemble self w g image_files
             (format_value song +:+ " Poster.jpg") slide_duration capture_time)).2).
Proof.
  intros Hlist Hsel Hne Hurl Hsong Hrun.
  unfold run, create_music_driven_slideshow, mbind, M_bind, lift, getitem.
  rewrite Hlist, Hsel. destruct (decide (image_files = [])) as [He|_]; [done|].
  rewrite Hurl, Hsong. unfold download_image. fold (wget_command self url song).
  rewrite Hrun. unfold emit. simpl.
  apply (plan_and_assemble_appends self w g image_files
           (format_value song +:+ " Poster.jpg") slide_duration capture_time).
Qed.


Lemma plan_slides_zero (image_files : list string) (poster : string)
    (total_duration slide_duration : Q) (g : G) :
  slides_needed_of total_duration slide_duration = 0 ->
  (plan_slides image_files poster total_duration slide_duration g).1 = [].
Proof. intros Hz. rewrite plan_slides_slice, Hz. reflexivity. Qed.

(** C5, as the code has it: when [slides_needed] is 0 the planner raises
    nothing and returns the empty plan; no slide is rendered, and the empty
    list of clips is handed to [concatenate_videoclips], where the run
    fails before anything is written. *)
Theorem empty_plan_reaches_concatenation (self : SlideShowGenerator) (w : World) (g : G)
    (slide_duration capture_time total_duration : Q) (listing image_files : list string)
    (url : string) (song : value) (status : Z) :
  listdir w (images_dir self) = Ok listing ->
  select_images self listing = Ok image_files ->
  image_files <> [] ->
  song_info self !! "Poster Image" = Some (VStr url) ->
  song_info self !! "Song" = Some song ->
  run_process w (wget_command self url song) = Some status ->
  audio_open w (music_path self) = Ok total_duration ->
  Qeq_bool slide_duration 0 = false ->
  slides_needed_of total_duration slide_duration = 0 ->
  (plan_slides image_files
     (os_path_join (output_path self) (format_value song +:+ " Poster.jpg"))
     total_duration slide_duration g).1 = [] /\
  run (create_music_driven_slideshow self w g slide_duration capture_time)
  = ([EvRun (wget_command self url song) status; EvAudioOpen (music_path self);
      EvPlanned []; EvConcatenate 0],
     Error (ValueError "max() arg is an empty sequence")).
Proof.
  intros Hlist Hsel Hne Hurl Hsong Hrun Haudio Hs Hz.
  split; [by apply plan_slides_zero|].
  rewrite (run_after_download self w g slide_duration capture_time listing image_files
             url song status) by assumption.
  unfold run, plan_and_assemble, mbind, M_bind, emit, lift. simpl.
  rewrite Haudio, Hs, (plan_slides_zero _ _ _ _ _ Hz). reflexivity.
Qed.

(** A run of the assembly that returns has written a video whose duration
    is the audio duration, when the plan has [ceil(D/S)] slides. *)
Lemma assemble_timeline_written_duration (self : SlideShowGenerator) (w : World)
    (plan : list string) (total_duration slide_duration capture_time : Q)
    (log : list Event) (out : string * string) :
  (0 < slide_duration)%Q ->
  Z.of_nat (length plan) = math_ceil (total_duration / slide_duration) ->
  run (assemble_timeline self w plan total_duration slide_duration capture_time)
  = (log, Ok out) ->
  exists d, EvWriteVideo (video_path self) d ∈ log /\ (d == total_duration)%Q.
Proof.
  intros Hs Hlen Hrun. unfold run, assemble_timeline in Hrun.
  apply bind_Ok_inv in Hrun as (clips & log1 & Hclips & Hrun).
  apply bind_Ok_inv in Hrun as ([] & log2 & _ & Hrun).
  apply bind_Ok_inv in Hrun as (final_clip & log3 & Hcat & Hrun).
  apply bind_Ok_inv in Hrun as ([] & log4 & _ & Hrun).
  apply bind_Ok_inv in Hrun as ([] & log5 & Hwrite & Hrun).
  apply bind_Ok_inv in Hrun as ([] & log6 & Hclose & Hrun).
  injection Hrun as <- _. injection Hclose as <-. injection Hwrite as <-.
  eexists. split; [apply elem_of_app; left; apply elem_of_app; right; apply list_elem_of_singleton; reflexivity|]. simpl.
  apply render_all_slides in Hclips as [Hn Hall].
  unfold lift in Hcat. injection Hcat as _ Hcat.
  destruct clips as [|clip clips]; [discriminate Hcat|]. injection Hcat as <-.
  rewrite trim_duration_min. apply Q.min_r. simpl.
  rewrite (total_of_slides _ _ Hall), Hn, Hlen.
  by apply math_ceil_div_mult_ge.
Qed.

End PipelineProperties.

(** C5, the counterexample.  Zero-length audio: [slides_needed] is 0, the
    planner returns the empty plan without an error ([EvPlanned []]) and
    [concatenate_videoclips] is called with no clip ([EvConcatenate 0]); the
    error is raised there, not by the planner. *)
Lemma zero_length_audio_reaches_assembly :
  slides_needed_of 0 (30 # 1) = 0 /\
  run (create_music_driven_slideshow (G := nat) demo_generator silent_world 7%nat
         (30 # 1) (10 # 1))
  = ([EvRun ["wget"; "-O"; "Output//Tune Poster.jpg"; "http://example.org/poster.jpg"] 0;
      EvAudioOpen "tune.mp3"; EvPlanned []; EvConcatenate 0],
     Error (ValueError "max() arg is an empty sequence")) /\
  ~ never_assembled
      (run (create_music_driven_slideshow (G := nat) demo_generator silent_world 7%nat
              (30 # 1) (10 # 1))).1.
Proof.
  split; [reflexivity|]. split; [reflexivity|].
  intros Hnever. apply (Hnever 0%nat).
  change (EvConcatenate 0 ∈
    [EvRun ["wget"; "-O"; "Output//Tune Poster.jpg"; "http://example.org/poster.jpg"] 0;
     EvAudioOpen "tune.mp3"; EvPlanned []; EvConcatenate 0]).
  set_solver.
Qed.

Lemma empty_plan_reaches_concatenation_witness :
  (plan_slides (G := nat)
     ["Singer Images/asha.1.jpg"; "Singer Images/asha.2.PNG"; "Singer Images/kishore.1.jpeg"]
     (os_path_join (output_path demo_generator) (format_value (VStr "Tune") +:+ " Poster.jpg"))
     0 (30 # 1) 7%nat).1 = [] /\
  run (create_music_driven_slideshow (G := nat) demo_generator silent_world 7%nat
         (30 # 1) (10 # 1))
  = ([EvRun (wget_command demo_generator "http://example.org/poster.jpg" (VStr "Tune")) 0;
      EvAudioOpen (music_path demo_generator); EvPlanned []; EvConcatenate 0],
     Error (ValueError "max() arg is an empty sequence")).
Proof.
  apply (empty_plan_reaches_concatenation (G := nat) demo_generator silent_world 7%nat
           (30 # 1) (10 # 1) 0
           ["asha.1.jpg"; "asha.2.PNG"; "kishore.1.jpeg"; "notes.txt"; "rafi.1.jpg"]
           ["Singer Images/asha.1.jpg"; "Singer Images/asha.2.PNG";
            "Singer Images/kishore.1.jpeg"]
           "http://example.org/poster.jpg" (VStr "Tune") 0).
  - reflexivity.
  - reflexivity.
  - discriminate.
  - reflexivity.
  - reflexivity.
  - reflexivity.
  - reflexivity.
  - reflexivity.
  - reflexivity.
Defined.


(** ** The footer gradient *)

(** [footer_alpha] is the integer part of [160 * (y / fh) ^ (3/2)]: with
    [a] its value, [a <= 160 * (y/fh)^(3/2) < a + 1], written with squares
    and without the division. *)
Lemma footer_alpha_bracket (fh y : Z) :
  0 < fh -> 0 <= y ->
  0 <= footer_alpha fh y /\
  footer_alpha fh y ^ 2 * fh ^ 3 <= 160 ^ 2 * y ^ 3
  < (footer_alpha fh y + 1) ^ 2 * fh ^ 3.
Proof.
  intros Hfh Hy. unfold footer_alpha.
  assert (Hfh3 : 0 < fh ^ 3) by (apply Z.pow_pos_nonneg; lia).
  assert (Hy3 : 0 <= 160 ^ 2 * y ^ 3) by (apply Z.mul_nonneg_nonneg; [|apply Z.pow_nonneg]; lia).
  set (n := 160 ^ 2 * y ^ 3) in *. set (d := fh ^ 3) in *.
  assert (Hq : 0 <= n / d) by (apply Z.div_pos; lia).
  pose proof (Z.sqrt_spec (n / d) Hq) as Hs. cbv zeta in Hs.
  pose proof (Z.sqrt_nonneg (n / d)) as Hs0.
  pose proof (Z.mul_div_le n d Hfh3) as Hlo.
  pose proof (Z.mul_succ_div_gt n d Hfh3) as Hhi.
  set (a := Z.sqrt (n / d)) in *.
  split; [exact Hs0|]. rewrite !Z.pow_2_r. unfold Z.succ in *. nia.
Qed.

(** The value under [int] is an integer in two rows only, [y = 0] and
    [y = 30] (where it is [0.25 ** 1.5 * 160 = 20] exactly); in every other
    row it is at least [1 / (120^3 * 320)] away from an integer, far more
    than the rounding of the floating-point power and product, so the
    integer part computed in floating point is [footer_alpha]. *)
Lemma footer_alpha_exact_rows (y : Z) :
  0 <= y < 120 ->
  footer_alpha 120 y ^ 2 * 120 ^ 3 = 160 ^ 2 * y ^ 3 -> y = 0 \/ y = 30.
Proof.
  intros Hy Heq.
  assert (Hall : forallb (fun n =>
      implb (footer_alpha 120 (Z.of_nat n) ^ 2 * 120 ^ 3 =? 160 ^ 2 * Z.of_nat n ^ 3)
            ((Z.of_nat n =? 0) || (Z.of_nat n =? 30))) (seq 0 120) = true)
    by (vm_compute; reflexivity).
  rewrite forallb_forall in Hall. specialize (Hall (Z.to_nat y)).
  rewrite Z2Nat.id in Hall by lia.
  assert (Hin : In (Z.to_nat y) (seq 0 120)) by (apply in_seq; lia).
  apply Hall in Hin. apply Z.eqb_eq in Heq. rewrite Heq in Hin. simpl in Hin.
  apply orb_true_iff in Hin as [H0 | H30]; [left | right]; by apply Z.eqb_eq.
Qed.

Lemma footer_alpha_mono (fh y y' : Z) :
  0 < fh -> 0 <= y <= y' -> footer_alpha fh y <= footer_alpha fh y'.
Proof.
  intros Hfh Hy. unfold footer_alpha. apply Z.sqrt_le_mono.
  apply Z.div_le_mono; [apply Z.pow_pos_nonneg; lia|].
  apply Z.mul_le_mono_nonneg_l; [lia|]. apply Z.pow_le_mono_l. lia.
Qed.

Lemma footer_alpha_range (y : Z) :
  0 <= y < 120 -> 0 <= footer_alpha 120 y <= 158.
Proof.
  intros Hy. split; [apply Z.sqrt_nonneg|].
  change 158 with (footer_alpha 120 119). apply footer_alpha_mono; lia.
Qed.

(** C3, the counterexample: in the middle of the band the value under
    [int] is 56.57: the code writes 56, rounding gives 57. *)
Lemma footer_alpha_truncates_not_rounds :
  footer_alpha 120 60 = 56 /\
  clamp_255 (footer_alpha_rounded 120 60) = 57 /\
  ~ (forall y, 0 <= y < 120 ->
       footer_alpha 120 y = clamp_255 (footer_alpha_rounded 120 y)).
Proof.
  split; [reflexivity|]. split; [reflexivity|].
  intros Hall. specialize (Hall 60 ltac:(lia)). discriminate Hall.
Qed.

(** The alpha never reaches 160: its largest value, on the last row of the
    band, is 158. *)
Example footer_alpha_last_row : footer_alpha 120 119 = 158.
Proof. reflexivity. Qed.

(** *** The loops that write the gradient *)

Lemma getpixel_Image_new {P : Type} (w h : nat) (color : P) (x y : nat) :
  getpixel (Image_new w h color) x y
  = if decide (x < w /\ y < h)%nat then Some color else None.
Proof.
  unfold getpixel, Image_new. simpl.
  destruct (decide (x < w /\ y < h)%nat) as [[Hx Hy]|Hn].
  - rewrite lookup_replicate_2 by done. simpl. by rewrite lookup_replicate_2.
  - destruct (decide (y < h)%nat) as [Hy|Hy].
    + rewrite lookup_replicate_2 by done. simpl.
      apply lookup_replicate_None. lia.
    + replace (replicate h (replicate w color) !! y) with (@None (list P)); [done|].
      symmetry. apply lookup_replicate_None. lia.
Qed.

Lemma getpixel_putpixel {P : Type} (im : Image P) (x y x' y' : nat) (v : P) :
  getpixel (putpixel im x y v) x' y'
  = if decide (x' = x /\ y' = y) then const v <$> getpixel im x' y' else getpixel im x' y'.
Proof.
  unfold getpixel, putpixel.
  destruct (im_rows im !! y) as [row|] eqn:Hrow; simpl.
  - destruct (decide (y' = y)) as [->|Hy].
    + rewrite list_lookup_insert_eq by (by eapply lookup_lt_Some). rewrite Hrow. simpl.
      destruct (decide (x' = x)) as [->|Hx].
      * rewrite decide_True by done.
        destruct (row !! x) as [p|] eqn:Hp.
        -- rewrite list_lookup_insert_eq by (by eapply lookup_lt_Some). done.
        -- rewrite list_insert_ge by (by apply lookup_ge_None). by rewrite Hp.
      * rewrite decide_False by (intros [? _]; done).
        by rewrite list_lookup_insert_ne.
    + rewrite decide_False by (intros [_ ?]; done).
      by rewrite list_lookup_insert_ne.
  - destruct (decide (x' = x /\ y' = y)) as [[-> ->]|]; [|done].
    by rewrite Hrow.
Qed.

Lemma footer_fill_row_S (w y : nat) (alpha : Z) (footer : Image rgba) :
  footer_fill_row (S w) y alpha footer
  = putpixel (footer_fill_row w y alpha footer) w y (0, 0, 0, alpha).
Proof. unfold footer_fill_row. by rewrite seq_S, foldl_app. Qed.

(** After the inner loop the pixels of row [y] in the columns below [w]
    hold the alpha, every other pixel is as before. *)
Lemma getpixel_footer_fill_row (w y : nat) (alpha : Z) (footer : Image rgba) (x' y' : nat) :
  getpixel (footer_fill_row w y alpha footer) x' y'
  = if decide (x' < w /\ y' = y)%nat then const (0, 0, 0, alpha) <$> getpixel footer x' y'
    else getpixel footer x' y'.
Proof.
  induction w as [|w IH]; [by rewrite decide_False by lia|].
  rewrite footer_fill_row_S, getpixel_putpixel, IH.
  destruct (decide (x' = w /\ y' = y)) as [[-> ->]|Hne].
  - rewrite decide_False by lia. by rewrite decide_True by lia.
  - destruct (decide (x' < w /\ y' = y)%nat) as [[Hx ->]|Hn].
    + by rewrite decide_True by lia.
    + by rewrite decide_False by lia.
Qed.

Lemma getpixel_footer_rows (w n : nat) (fh : Z) (footer : Image rgba) (x' y' : nat) :
  getpixel (footer_rows w n fh footer) x' y'
  = if decide (x' < w /\ y' < n)%nat
    then const (0, 0, 0, footer_alpha fh (Z.of_nat y')) <$> getpixel footer x' y'
    else getpixel footer x' y'.
Proof.
  induction n as [|n IH]; [by rewrite decide_False by lia|].
  unfold footer_rows in *. rewrite seq_S, foldl_app. cbn [foldl Nat.add].
  rewrite getpixel_footer_fill_row, IH.
  destruct (decide (x' < w /\ y' = n)%nat) as [[Hx ->]|Hne].
  - rewrite decide_False by lia. by rewrite decide_True by lia.
  - destruct (decide (x' < w /\ y' < n)%nat) as [[Hx Hy]|Hn].
    + by rewrite decide_True by lia.
    + by rewrite decide_False by lia.
Qed.

(** Every pixel of the footer image is black with the alpha of its row. *)
Lemma getpixel_footer_gradient (self : SlideShowGenerator) (x y : nat) :
  getpixel (footer_gradient self) x y
  = if decide (x < Z.to_nat (width self) /\ y < Z.to_nat (footer_height self))%nat
    then Some (0, 0, 0, footer_alpha (footer_height self) (Z.of_nat y))
    else None.
Proof.
  unfold footer_gradient.
  change (foldl _ ?im (seq 0 ?n))
    with (footer_rows (Z.to_nat (width self)) n (footer_height self) im).
  rewrite getpixel_footer_rows, getpixel_Image_new.
  by destruct (decide _).
Qed.

(** C3, as the code has it: with [footer_height = 120], every pixel of row
    [y] of the footer image, in every column, is black with the alpha
    [int((y / 120) ** 1.5 * 160)], the integer part (not the nearest
    integer) of [160 * (y/120)^(3/2)]; the alpha lies in [0, 158], so it
    needs no clamping and is never fully opaque, it does not decrease with
    [y], it is 0 on the first row and 158 on the last. *)
Theorem footer_alpha_gradient (self : SlideShowGenerator) (x y : nat) :
  footer_height self = 120 ->
  (x < Z.to_nat (width self))%nat -> (y < 120)%nat ->
  getpixel (footer_gradient self) x y
  = Some (0, 0, 0, footer_alpha 120 (Z.of_nat y)) /\
  footer_alpha 120 (Z.of_nat y) ^ 2 * 120 ^ 3 <= 160 ^ 2 * Z.of_nat y ^ 3
  < (footer_alpha 120 (Z.of_nat y) + 1) ^ 2 * 120 ^ 3 /\
  0 <= footer_alpha 120 (Z.of_nat y) <= 158 /\
  (forall y', Z.of_nat y <= y' < 120 ->
     footer_alpha 120 (Z.of_nat y) <= footer_alpha 120 y') /\
  footer_alpha 120 0 = 0 /\
  footer_alpha 120 119 = 158.
Proof.
  intros Hfh Hx Hy. split; [|split; [|split; [|split; [|split]]]].
  - rewrite getpixel_footer_gradient, Hfh. by rewrite decide_True by lia.
  - apply footer_alpha_bracket; lia.
  - apply footer_alpha_range. lia.
  - intros y' Hy'. apply footer_alpha_mono; lia.
  - reflexivity.
  - reflexivity.
Qed.

Lemma footer_alpha_gradient_witness :
  getpixel (footer_gradient demo_generator) 0 60
  = Some (0, 0, 0, footer_alpha 120 (Z.of_nat 60)) /\
  footer_alpha 120 (Z.of_nat 60) ^ 2 * 120 ^ 3 <= 160 ^ 2 * Z.of_nat 60 ^ 3
  < (footer_alpha 120 (Z.of_nat 60) + 1) ^ 2 * 120 ^ 3 /\
  0 <= footer_alpha 120 (Z.of_nat 60) <= 158 /\
  (forall y', Z.of_nat 60 <= y' < 120 ->
     footer_alpha 120 (Z.of_nat 60) <= footer_alpha 120 y') /\
  footer_alpha 120 0 = 0 /\
  footer_alpha 120 119 = 158.
Proof.
  apply (footer_alpha_gradient demo_generator 0 60).
  - reflexivity.
  - simpl. lia.
  - lia.
Defined.

(** ** Pasting the footer *)

Lemma getpixel_map_pixels {P R : Type} (f : nat -> nat -> P -> R) (im : Image P)
    (x y : nat) :
  getpixel (map_pixels f im) x y = f x y <$> getpixel im x y.
Proof.
  unfold getpixel, map_pixels. simpl. rewrite list_lookup_imap.
  destruct (im_rows im !! y) as [row|]; [|done]. simpl. by rewrite list_lookup_imap.
Qed.

Lemma div255_byte (v : Z) : 0 <= v <= 255 -> div255 (v * 255) = v.
Proof.
  intros Hv. unfold div255. rewrite !Z.shiftr_div_pow2 by lia.
  change (2 ^ 8) with 256.
  assert (Hq : (v * 255 + 128) / 256 = v \/ (v * 255 + 128) / 256 = v - 1).
  { destruct (Z_le_dec v 128).
    - left. symmetry. apply Z.div_unique with (r := 128 - v); lia.
    - right. symmetry. apply Z.div_unique with (r := 384 - v); lia. }
  destruct Hq as [-> | ->]; symmetry.
  - apply Z.div_unique with (r := 128); lia.
  - apply Z.div_unique with (r := 127); lia.
Qed.

(** Blending with black never brightens a channel, whatever the mask. *)
Lemma blend_black_le (m v : Z) :
  0 <= m <= 255 -> 0 <= v <= 255 -> 0 <= blend m v 0 <= v.
Proof.
  intros Hm Hv. unfold blend, div255. rewrite !Z.shiftr_div_pow2 by lia.
  change (2 ^ 8) with 256. rewrite Z.mul_0_l, Z.add_0_r.
  assert (Ha : 0 <= v * (255 - m) <= v * 255) by nia.
  set (a := v * (255 - m)) in *.
  assert (Hq : 0 <= (a + 128) / 256 <= v).
  { split; [apply Z.div_pos; lia|].
    apply Z.lt_succ_r, Z.div_lt_upper_bound; lia. }
  split; [apply Z.div_pos; lia|].
  apply Z.lt_succ_r, Z.div_lt_upper_bound; lia.
Qed.

Lemma blend_rgb_zero_mask (p : rgb) : valid_rgb p -> blend_rgb 0 p (0, 0, 0) = p.
Proof.
  destruct p as [[r g] b]. intros (Hr & Hg & Hb). unfold blend_rgb, blend.
  rewrite !Z.mul_0_l, !Z.add_0_r, Z.sub_0_r. by rewrite !div255_byte.
Qed.

Lemma blend_rgb_black_le (m : Z) (p : rgb) :
  0 <= m <= 255 -> valid_rgb p -> rgb_le (blend_rgb m p (0, 0, 0)) p.
Proof.
  destruct p as [[r g] b]. intros Hm (Hr & Hg & Hb). unfold blend_rgb, rgb_le.
  pose proof (blend_black_le m r Hm Hr). pose proof (blend_black_le m g Hm Hg).
  pose proof (blend_black_le m b Hm Hb). lia.
Qed.

(** The mask the program pastes with, [footer.convert('L')], is the luma of
    the colour channels of the footer image, which are black in every
    pixel: the mask is 0 everywhere and does not carry the alpha. *)
Lemma getpixel_footer_mask (self : SlideShowGenerator) (x y : nat) :
  getpixel (convert_L (footer_gradient self)) x y
  = if decide (x < Z.to_nat (width self) /\ y < Z.to_nat (footer_height self))%nat
    then Some 0 else None.
Proof.
  unfold convert_L. rewrite getpixel_map_pixels, getpixel_footer_gradient.
  by destruct (decide _).
Qed.

(** A pixel of the canvas after a masked paste of a colour. *)
Lemma getpixel_paste_fill (bg : Image rgb) (ink : rgb) (ox oy : Z) (mask : Image Z)
    (x y : nat) :
  getpixel (paste_fill bg ink ox oy mask) x y
  = (fun p =>
       if in_box ox oy (im_width mask) (im_height mask) x y then
         match getpixel mask (Z.to_nat (Z.of_nat x - ox)) (Z.to_nat (Z.of_nat y - oy)) with
         | Some m => blend_rgb m p ink
         | None => p
         end
       else p) <$> getpixel bg x y.
Proof. unfold paste_fill. by rewrite getpixel_map_pixels. Qed.

(** A masked paste at row [oy] leaves the rows above [oy] as they are,
    whatever the mask. *)
Lemma paste_fill_above (bg : Image rgb) (ink : rgb) (ox oy : Z) (mask : Image Z)
    (x y : nat) :
  Z.of_nat y < oy ->
  getpixel (paste_fill bg ink ox oy mask) x y = getpixel bg x y.
Proof.
  intros Hy. rewrite getpixel_paste_fill. unfold in_box.
  replace (oy <=? Z.of_nat y) with false by (symmetry; apply Z.leb_gt; lia).
  rewrite andb_false_r. simpl. by destruct (getpixel bg x y).
Qed.

(** A masked paste of black never brightens a pixel, whatever the mask. *)
Lemma paste_fill_black_darkens (bg : Image rgb) (ox oy : Z) (mask : Image Z)
    (x y : nat) (p : rgb) :
  (forall x' y' m, getpixel mask x' y' = Some m -> 0 <= m <= 255) ->
  getpixel bg x y = Some p -> valid_rgb p ->
  exists q, getpixel (paste_fill bg (0, 0, 0) ox oy mask) x y = Some q /\ rgb_le q p.
Proof.
  intros Hmask Hp Hvalid. rewrite getpixel_paste_fill, Hp. simpl.
  assert (Hrefl : rgb_le p p) by (destruct p as [[r g] b]; simpl; lia).
  destruct (in_box _ _ _ _ _ _); [|by exists p].
  destruct (getpixel mask _ _) as [m|] eqn:Hm; [|by exists p].
  eexists. split; [reflexivity|]. apply blend_rgb_black_le; [by eapply Hmask | done].
Qed.

(** C10: pasting the footer changes no pixel above the footer band, the
    rows with index below [height - footer_height], and brightens no pixel
    anywhere. *)
Theorem paste_footer_frame (self : SlideShowGenerator) (background : Image rgb)
    (x y : nat) (p : rgb) :
  getpixel background x y = Some p ->
  (Z.of_nat y < height self - footer_height self ->
   getpixel (paste_footer self background) x y = Some p) /\
  (valid_rgb p ->
   exists q, getpixel (paste_footer self background) x y = Some q /\ rgb_le q p).
Proof.
  intros Hp. split.
  - intros Hy. unfold paste_footer. by rewrite paste_fill_above.
  - intros Hvalid. apply paste_fill_black_darkens; [|done..].
    intros x' y' m. rewrite getpixel_footer_mask.
    destruct (decide _); [|done]. intros [= <-]. lia.
Qed.

Lemma paste_footer_frame_witness :
  (Z.of_nat 500 < height demo_generator - footer_height demo_generator ->
   getpixel (paste_footer demo_generator (Image_new 1920 1080 (255, 255, 255))) 5 500
   = Some (255, 255, 255)) /\
  (valid_rgb (255, 255, 255) ->
   exists q,
     getpixel (paste_footer demo_generator (Image_new 1920 1080 (255, 255, 255))) 5 500
     = Some q /\ rgb_le q (255, 255, 255)).
Proof.
  apply (paste_footer_frame demo_generator (Image_new 1920 1080 (255, 255, 255))
           5 500 (255, 255, 255)).
  rewrite getpixel_Image_new. apply decide_True. lia.
Defined.

(** As the mask is 0 everywhere, the paste changes no pixel at all, inside
    the band either: the gradient of [footer_gradient] does not reach the
    canvas. *)
Lemma paste_footer_unchanged (self : SlideShowGenerator) (background : Image rgb)
    (x y : nat) (p : rgb) :
  getpixel background x y = Some p -> valid_rgb p ->
  getpixel (paste_footer self background) x y = Some p.
Proof.
  intros Hp Hvalid. unfold paste_footer. rewrite getpixel_paste_fill, Hp. simpl.
  destruct (in_box _ _ _ _ _ _); [|done]. rewrite getpixel_footer_mask.
  destruct (decide _); [|done]. by rewrite blend_rgb_zero_mask.
Qed.

(** ** The letterbox *)









Section Letterbox.
Context `{Resampling}.



End Letterbox.


